(** * Real-time connection layer of the fullstack-modern backend

    Shallow embedding of [backend/src/websocket.rs]: the [WsMessage]
    envelope, the [ConnectionManager] (connection registry and room index,
    each behind a tokio [RwLock]), the per-connection tokio broadcast
    channel, [authenticate_websocket], [websocket_connection] and
    [handle_websocket_message]. *)

From stdpp Require Import base gmap list strings.
From Stdlib Require Import ZArith.

(** ** Data model *)

(** [Uuid] and [chrono::DateTime<Utc>] are opaque values; integers stand
    for them. *)
Abbreviation Uuid := Z.
Abbreviation DateTime := Z.

(** [enum WsMessage] *)
Inductive WsMessage : Type :=
  | Ping
  | Pong
  | ChatMessage (chat_id message_id : Uuid) (content : string)
                (sender_id : Uuid) (timestamp : DateTime)
  | TypingStart (chat_id user_id : Uuid)
  | TypingStop (chat_id user_id : Uuid)
  | Notification (id : Uuid) (title message notification_type : string)
                 (timestamp : DateTime)
  | UserOnline (user_id : Uuid)
  | UserOffline (user_id : Uuid)
  | Error (message : string) (code : option string)
  | Success (message : string).

(** A [broadcast::Sender<WsMessage>] handle, identified by its channel. *)
Abbreviation Sender := Z.

(** State of a tokio [RwLock]: free, held by [n >= 1] readers, or held by
    a writer. *)
Inductive RwState : Type :=
  | Unlocked
  | Readers (n : nat)
  | Writer.

Inductive LockId : Type := ConnsLock | ChatsLock.

(** [struct ConnectionManager], together with the state of its two locks
    and the log of every [sender.send(..)] it performed: [(u, m)] means
    [m] was sent on the channel registered for user [u]. *)
Record Manager : Type := mkManager {
  connections : gmap Uuid Sender;
  conn_lock : RwState;
  chat_participants : gmap Uuid (list Uuid);
  chat_lock : RwState;
  outbox : list (Uuid * WsMessage)
}.

(** [ConnectionManager::new()] *)
Definition new_manager : Manager :=
  mkManager ∅ Unlocked ∅ Unlocked [].

Definition lock_of (l : LockId) (s : Manager) : RwState :=
  match l with ConnsLock => conn_lock s | ChatsLock => chat_lock s end.

Definition set_lock (l : LockId) (st : RwState) (s : Manager) : Manager :=
  match l with
  | ConnsLock =>
      mkManager (connections s) st (chat_participants s) (chat_lock s) (outbox s)
  | ChatsLock =>
      mkManager (connections s) (conn_lock s) (chat_participants s) st (outbox s)
  end.

Definition set_connections (c : gmap Uuid Sender) (s : Manager) : Manager :=
  mkManager c (conn_lock s) (chat_participants s) (chat_lock s) (outbox s).

Definition set_chat_participants (cp : gmap Uuid (list Uuid)) (s : Manager)
  : Manager :=
  mkManager (connections s) (conn_lock s) cp (chat_lock s) (outbox s).

Definition set_outbox (o : list (Uuid * WsMessage)) (s : Manager) : Manager :=
  mkManager (connections s) (conn_lock s) (chat_participants s) (chat_lock s) o.

(** ** The async monad

    Each method runs as one task.  A task either finishes with a value, or
    waits on a lock forever: in [ConnectionManager] a lock that a task
    cannot take is held by that same task (a guard still in scope), or by a
    task that is itself waiting forever, so nobody ever releases it. *)
Inductive outcome (A : Type) : Type :=
  | Done (a : A) (s : Manager)
  | Blocked (s : Manager).
Arguments Done {A} a s.
Arguments Blocked {A} s.

Definition M (A : Type) : Type := Manager -> outcome A.

Global Instance M_ret : MRet M := fun A a s => Done a s.
Global Instance M_bind : MBind M := fun A B k m s =>
  match m s with
  | Done a s' => k a s'
  | Blocked s' => Blocked s'
  end.

(** The state an operation leaves behind, whether or not it returns. *)
Definition final_state {A} (o : outcome A) : Manager :=
  match o with Done _ s => s | Blocked s => s end.

Definition gets {A} (f : Manager -> A) : M A := fun s => Done (f s) s.
Definition modify (f : Manager -> Manager) : M unit := fun s => Done tt (f s).

(** [lock.read().await] *)
Definition read_lock (l : LockId) : M unit := fun s =>
  match lock_of l s with
  | Unlocked => Done tt (set_lock l (Readers 1) s)
  | Readers n => Done tt (set_lock l (Readers (S n)) s)
  | Writer => Blocked s
  end.

(** dropping a read guard *)
Definition read_unlock (l : LockId) : M unit := fun s =>
  match lock_of l s with
  | Readers (S (S n)) => Done tt (set_lock l (Readers (S n)) s)
  | _ => Done tt (set_lock l Unlocked s)
  end.

(** [lock.write().await] *)
Definition write_lock (l : LockId) : M unit := fun s =>
  match lock_of l s with
  | Unlocked => Done tt (set_lock l Writer s)
  | _ => Blocked s
  end.

(** dropping a write guard *)
Definition write_unlock (l : LockId) : M unit := fun s =>
  Done tt (set_lock l Unlocked s).

(** [let _ = sender.send(message)] on the channel registered for [u]. *)
Definition send (u : Uuid) (m : WsMessage) : M unit :=
  modify (fun s => set_outbox (outbox s ++ [(u, m)]) s).

Fixpoint for_each {A} (f : A -> M unit) (l : list A) : M unit :=
  match l with
  | [] => mret tt
  | x :: r => f x ;; for_each f r
  end.

(** ** [impl ConnectionManager] *)

(** [broadcast_to_all]: read-locks [connections] and sends on every
    registered channel. *)
Definition broadcast_to_all (message : WsMessage) : M unit :=
  read_lock ConnsLock ;;
  conns ← gets connections ;
  for_each (fun '(u, _) => send u message) (map_to_list conns) ;;
  read_unlock ConnsLock.

(** [add_connection]: the write guard [connections] is held until the end
    of the function, across the call to [broadcast_to_all]. *)
Definition add_connection (user_id : Uuid) (sender : Sender) : M unit :=
  write_lock ConnsLock ;;
  modify (fun s => set_connections (<[user_id := sender]> (connections s)) s) ;;
  broadcast_to_all (UserOnline user_id) ;;
  write_unlock ConnsLock.

(** [remove_connection]: same guard discipline as [add_connection]. *)
Definition remove_connection (user_id : Uuid) : M unit :=
  write_lock ConnsLock ;;
  modify (fun s => set_connections (delete user_id (connections s)) s) ;;
  broadcast_to_all (UserOffline user_id) ;;
  write_unlock ConnsLock.

(** [send_to_user] *)
Definition send_to_user (user_id : Uuid) (message : WsMessage) : M unit :=
  read_lock ConnsLock ;;
  conns ← gets connections ;
  match conns !! user_id with
  | Some _ => send user_id message
  | None => mret tt
  end ;;
  read_unlock ConnsLock.

(** [exclude_user.map_or(true, |excluded| excluded != *user_id)] *)
Definition not_excluded (exclude_user : option Uuid) (user_id : Uuid) : bool :=
  match exclude_user with
  | None => true
  | Some excluded => negb (Z.eqb excluded user_id)
  end.

(** [send_to_chat] *)
Definition send_to_chat (chat_id : Uuid) (message : WsMessage)
    (exclude_user : option Uuid) : M unit :=
  read_lock ChatsLock ;;
  cp ← gets chat_participants ;
  match cp !! chat_id with
  | Some participants =>
      read_lock ConnsLock ;;
      conns ← gets connections ;
      for_each (fun user_id =>
        if not_excluded exclude_user user_id then
          match conns !! user_id with
          | Some _ => send user_id message
          | None => mret tt
          end
        else mret tt) participants ;;
      read_unlock ConnsLock
  | None => mret tt
  end ;;
  read_unlock ChatsLock.

(** The map update of [add_user_to_chat]:
    [entry(chat_id).or_insert_with(Vec::new).push(user_id)]. *)
Definition chat_join (chat_id user_id : Uuid) (cp : gmap Uuid (list Uuid))
  : gmap Uuid (list Uuid) :=
  <[chat_id := default [] (cp !! chat_id) ++ [user_id]]> cp.

(** The map update of [remove_user_from_chat]: [retain] then remove the
    entry when the vector became empty. *)
Definition chat_leave (chat_id user_id : Uuid) (cp : gmap Uuid (list Uuid))
  : gmap Uuid (list Uuid) :=
  match cp !! chat_id with
  | Some participants =>
      let participants' := filter (fun id => id ≠ user_id) participants in
      match participants' with
      | [] => delete chat_id cp
      | _ => <[chat_id := participants']> cp
      end
  | None => cp
  end.

(** [add_user_to_chat] *)
Definition add_user_to_chat (chat_id user_id : Uuid) : M unit :=
  write_lock ChatsLock ;;
  modify (fun s => set_chat_participants
                     (chat_join chat_id user_id (chat_participants s)) s) ;;
  write_unlock ChatsLock.

(** [remove_user_from_chat] *)
Definition remove_user_from_chat (chat_id user_id : Uuid) : M unit :=
  write_lock ChatsLock ;;
  modify (fun s => set_chat_participants
                     (chat_leave chat_id user_id (chat_participants s)) s) ;;
  write_unlock ChatsLock.

(** [get_online_users]: [connections.keys().cloned().collect()] *)
Definition get_online_users : M (list Uuid) :=
  read_lock ConnsLock ;;
  ks ← gets (fun s => map fst (map_to_list (connections s))) ;
  read_unlock ConnsLock ;;
  mret ks.

(** ** [handle_websocket_message]

    [new_id] and [now] are the values [Uuid::new_v4()] and
    [chrono::Utc::now()] return during the call.  The result lists the
    envelopes sent on the session's own channel [_tx]; the sends made
    through [send_to_chat] are in the manager's [outbox].  The typing
    arms bind only [chat_id]; the [user_id] of the inbound envelope is
    ignored. *)
Definition handle_websocket_message (message : WsMessage) (user_id : Uuid)
    (new_id : Uuid) (now : DateTime) : M (list WsMessage) :=
  match message with
  | Ping => mret [Pong]
  | ChatMessage chat_id _ content _ _ =>
      let message_id := new_id in
      let timestamp := now in
      let broadcast_message :=
        ChatMessage chat_id message_id content user_id timestamp in
      send_to_chat chat_id broadcast_message (Some user_id) ;;
      mret []
  | TypingStart chat_id _ =>
      let typing_message := TypingStart chat_id user_id in
      send_to_chat chat_id typing_message (Some user_id) ;;
      mret []
  | TypingStop chat_id _ =>
      let typing_message := TypingStop chat_id user_id in
      send_to_chat chat_id typing_message (Some user_id) ;;
      mret []
  | _ => mret []
  end.

(** ** The session: [authenticate_websocket] and [websocket_connection] *)

(** [axum::extract::ws::Message]; the payloads of the binary and control
    frames play no part. *)
Inductive Message : Type :=
  | Text (text : string)
  | Binary
  | MsgPing
  | MsgPong
  | Close.

(** An item of the split receiver: [Ok(msg)] or [Err(_)]. *)
Inductive StreamItem : Type :=
  | ItemOk (msg : Message)
  | ItemErr.

(** [auth::Claims]; only [sub] is read here. *)
Record Claims : Type := mkClaims { sub : Uuid }.

(** Which branch of [tokio::select!] completed first. *)
Inductive PumpExit : Type := SenderTaskDone | ReceiverTaskDone.

Section Session.

(** [serde_json::from_str::<AuthMessage>(&text)], giving the [token]. *)
Variable parse_auth_message : string -> option string.
(** [crate::auth::verify_token]: the claims, or the error's message. *)
Variable verify_token : string -> Claims + string.
(** Spawning [sender_task] and [receiver_task] and waiting in
    [tokio::select!] until the first of them completes. *)
Variable select_pumps : Uuid -> M PumpExit.

(** [authenticate_websocket]; [first] is [receiver.next().await]. *)
Definition authenticate_websocket (first : option StreamItem) : Uuid + string :=
  match first with
  | Some (ItemOk (Text text)) =>
      match parse_auth_message text with
      | None => inr "Invalid authentication message format"%string
      | Some token =>
          match verify_token token with
          | inr _ => inr "Invalid or expired token"%string
          | inl claims => inl (sub claims)
          end
      end
  | Some _ => inr "Expected text message for authentication"%string
  | None => inr "No authentication message received"%string
  end.

(** Lines 253-260 of [websocket_connection]: whichever branch of
    [select!] fired, the code after it runs. *)
Definition session_teardown (user_id : Uuid) (first_done : PumpExit) : M unit :=
  match first_done with
  | SenderTaskDone => mret tt
  | ReceiverTaskDone => mret tt
  end ;;
  remove_connection user_id.

(** [websocket_connection] with [tx] the sender of the fresh channel.  The
    result lists what the function itself writes to the transport
    ([sender.send(..)] before the split halves move into the tasks). *)
Definition websocket_connection (first : option StreamItem) (tx : Sender)
  : M (list WsMessage) :=
  match authenticate_websocket first with
  | inr error =>
      let error_msg := Error error (Some "AUTH_FAILED"%string) in
      mret [error_msg]
  | inl user_id =>
      add_connection user_id tx ;;
      first_done ← select_pumps user_id ;
      session_teardown user_id first_done ;;
      mret []
  end.

End Session.

(** ** The per-connection queue: [broadcast::channel::<WsMessage>(100)]

    A tokio broadcast channel with the single receiver [rx]: it rounds the
    requested capacity up to a power of two; [send] never waits; when
    [capacity] values are unread, a send overwrites the oldest one and the
    receiver's next [recv] reports [Lagged(n)]. *)
Record BroadcastChannel : Type := mkChannel {
  capacity : nat;
  buffer : list WsMessage;  (** unread values, oldest first *)
  lag : nat                 (** values overwritten before being read *)
}.

(** [usize::next_power_of_two] *)
Definition next_power_of_two (n : nat) : nat := 2 ^ Nat.log2_up n.

(** [broadcast::channel(capacity)] *)
Definition broadcast_channel (cap : nat) : BroadcastChannel :=
  mkChannel (next_power_of_two cap) [] 0.

(** [tx.send(m)] *)
Definition chan_send (m : WsMessage) (ch : BroadcastChannel) : BroadcastChannel :=
  if length (buffer ch) <? capacity ch
  then mkChannel (capacity ch) (buffer ch ++ [m]) (lag ch)
  else mkChannel (capacity ch) (drop 1 (buffer ch) ++ [m]) (S (lag ch)).

Definition send_all (ms : list WsMessage) (ch : BroadcastChannel) : BroadcastChannel :=
  fold_left (fun c m => chan_send m c) ms ch.

Inductive RecvResult : Type :=
  | RecvOk (m : WsMessage)
  | RecvLagged (n : nat)
  | RecvPending.   (** nothing unread: [recv().await] waits *)

(** [rx.recv()] *)
Definition chan_recv (ch : BroadcastChannel) : RecvResult * BroadcastChannel :=
  if 0 <? lag ch then (RecvLagged (lag ch), mkChannel (capacity ch) (buffer ch) 0)
  else match buffer ch with
       | m :: rest => (RecvOk m, mkChannel (capacity ch) rest 0)
       | [] => (RecvPending, ch)
       end.

(** [sender_task] resumed on [ch] with no further sends and a transport
    accepting every write: [while let Ok(message) = rx.recv().await]
    writes each received value and leaves the loop on [Err(Lagged)]. *)
Fixpoint sender_task (fuel : nat) (ch : BroadcastChannel) : list WsMessage :=
  match fuel with
  | 0 => []
  | S f =>
      match chan_recv ch with
      | (RecvOk m, ch') => m :: sender_task f ch'
      | (RecvLagged _, _) => []
      | (RecvPending, _) => []
      end
  end.

Example chan100 : capacity (broadcast_channel 100) = 128.
Proof. reflexivity. Qed.

(** ** The inbound pump: [receiver_task]

    Each inbound item comes with the values [Uuid::new_v4()] and
    [chrono::Utc::now()] would return if the handler ran on it.  The result
    lists the envelopes sent on the session's own channel [tx_clone]. *)
Section InboundPump.

(** [serde_json::from_str::<WsMessage>(&text)] *)
Variable parse_ws_message : string -> option WsMessage.

Fixpoint receiver_task (user_id : Uuid)
    (items : list (StreamItem * (Uuid * DateTime))) : M (list WsMessage) :=
  match items with
  | [] => mret []
  | (item, (new_id, now)) :: rest =>
      match item with
      | ItemOk (Text text) =>
          match parse_ws_message text with
          | Some ws_message =>
              out ← handle_websocket_message ws_message user_id new_id now ;
              out' ← receiver_task user_id rest ;
              mret (out ++ out')
          | None => receiver_task user_id rest
          end
      | ItemOk Binary => receiver_task user_id rest
      | ItemOk Close => mret []
      | ItemOk MsgPing =>
          out' ← receiver_task user_id rest ;
          mret (Pong :: out')
      | ItemOk MsgPong => receiver_task user_id rest
      | ItemErr => mret []
      end
  end.

End InboundPump.

(** ** Properties *)

(** The sends performed by [send_to_chat chat_id message exclude_user]:
    one per participant, in order, that is not excluded and is
    registered. *)
Definition chat_deliveries (s : Manager) (chat_id : Uuid) (message : WsMessage)
    (exclude_user : option Uuid) : list (Uuid * WsMessage) :=
  map (fun u => (u, message))
    (filter (fun u => not_excluded exclude_user u = true /\ is_Some (connections s !! u))
       (default [] (chat_participants s !! chat_id))).

Lemma set_outbox_outbox s : set_outbox (outbox s) s = s.
Proof. by destruct s. Qed.

Lemma set_outbox_twice o o' s : set_outbox o (set_outbox o' s) = set_outbox o s.
Proof. by destruct s. Qed.

Lemma for_each_send (P : Uuid -> Prop) `{!forall u, Decision (P u)}
    (f : Uuid -> M unit) (m : WsMessage) (l : list Uuid) (s : Manager) :
  (forall u, f u = if decide (P u) then send u m else mret tt) ->
  for_each f l s =
  Done tt (set_outbox (outbox s ++ map (fun u => (u, m)) (filter P l)) s).
Proof.
  intros Hf. revert s. induction l as [|u l IH]; intros s; simpl.
  - by rewrite app_nil_r, set_outbox_outbox.
  - unfold mbind, M_bind. rewrite Hf. rewrite filter_cons.
    destruct (decide (P u)); simpl.
    + unfold send, modify. rewrite IH. simpl.
      by rewrite <- app_assoc.
    + unfold mret, M_ret. by rewrite IH.
Qed.


Lemma not_excluded_Some (U v : Uuid) : not_excluded (Some U) v = true <-> U <> v.
Proof. simpl. rewrite negb_true_iff, Z.eqb_neq. done. Qed.

Lemma filter_fst_map {A B} `{EqDecision A} (f : A -> B) (v : A) (l : list A) :
  length (filter (fun e : A * B => e.1 = v) (map (fun u => (u, f u)) l)) =
  length (filter (fun u => u = v) l).
Proof.
  induction l as [|x l IH]; [done|]. simpl. rewrite !filter_cons. simpl.
  case_decide; simpl; by rewrite IH.
Qed.

(** The send loop of [send_to_chat], evaluated. *)
Lemma send_to_chat_run (s : Manager) chat_id message exclude_user :
  conn_lock s = Unlocked -> chat_lock s = Unlocked ->
  send_to_chat chat_id message exclude_user s =
  Done tt (set_outbox (outbox s ++ chat_deliveries s chat_id message exclude_user) s).
Proof.
  intros Hc Hch. destruct s as [conns cl cp chl ob]; simpl in *; subst.
  unfold send_to_chat, chat_deliveries, mbind, M_bind, read_lock, gets; simpl.
  destruct (cp !! chat_id) as [ps|] eqn:Hps; simpl.
  - rewrite (for_each_send
      (fun u => not_excluded exclude_user u = true /\ is_Some (conns !! u))
      _ message).
    + reflexivity.
    + intros u. destruct (not_excluded exclude_user u), (conns !! u);
        case_decide; naive_solver.
  - by rewrite app_nil_r.
Qed.

(** Per member, [send_to_chat chat_id message (Some U)] delivers as many
    copies as the member is listed in the room's vector, provided it is
    registered and is not [U]; [U] receives none. *)
Lemma send_to_chat_delivery_count (s : Manager) (chat_id U v : Uuid)
    (message : WsMessage) :
  conn_lock s = Unlocked -> chat_lock s = Unlocked ->
  exists d,
    send_to_chat chat_id message (Some U) s = Done tt (set_outbox (outbox s ++ d) s) /\
    (forall v' m, (v', m) ∈ d -> m = message) /\
    length (filter (fun e : Uuid * WsMessage => e.1 = v) d) =
      if decide (v = U) then 0
      else if decide (is_Some (connections s !! v))
           then length (filter (fun u => u = v) (default [] (chat_participants s !! chat_id)))
           else 0.
Proof.
  intros Hc Hch. exists (chat_deliveries s chat_id message (Some U)).
  split; [by apply send_to_chat_run|]. unfold chat_deliveries. split.
  { intros v' m Hin. apply list_elem_of_In, in_map_iff in Hin as (u & Heq & _).
    by injection Heq. }
  rewrite (filter_fst_map (fun _ => message)), list_filter_filter.
  generalize (default [] (chat_participants s !! chat_id)) as ps. intros ps.
  destruct (decide (v = U)) as [->|HvU].
  { induction ps as [|p ps IH]; [done|]. rewrite filter_cons.
    case_decide as Hp; [|done]. destruct Hp as [-> [Hne _]].
    apply not_excluded_Some in Hne. done. }
  destruct (decide (is_Some (connections s !! v))) as [Hr|Hr].
  - induction ps as [|p ps IH]; [done|]. rewrite !filter_cons.
    destruct (decide (p = v)) as [->|Hpv].
    + rewrite decide_True; [simpl; f_equal; exact IH|].
      split; [done|]. split; [by apply not_excluded_Some|done].
    + rewrite decide_False; [done|]. by intros [? _].
  - induction ps as [|p ps IH]; [done|]. rewrite filter_cons.
    rewrite decide_False; [done|]. by intros [-> [_ ?]].
Qed.

(** Room 7 as left by [add_user_to_chat] for users 1, 2 and 2 again, with
    users 1 and 2 registered. *)
Definition room_with_repeated_member : Manager :=
  final_state
    ((add_user_to_chat 7%Z 1%Z ;; add_user_to_chat 7%Z 2%Z ;; add_user_to_chat 7%Z 2%Z)
       (set_connections {[1%Z := 11%Z; 2%Z := 12%Z]} new_manager)).

(** C2 (code bug): a second [add_user_to_chat 7 2] lists member 2 twice in
    room 7, and [send_to_chat 7 message (Some 1)] then delivers the envelope
    twice to member 2.  The exclusion itself holds: member 1, the excluded
    sender, receives nothing. *)
Theorem send_to_chat_double_delivery :
  chat_participants room_with_repeated_member !! 7%Z = Some [1%Z; 2%Z; 2%Z] /\
  is_Some (connections room_with_repeated_member !! 2%Z) /\
  outbox (final_state
    (send_to_chat 7%Z (Success "hi") (Some 1%Z) room_with_repeated_member))
  = [(2%Z, Success "hi"); (2%Z, Success "hi")].
Proof.
  split; [vm_compute; reflexivity|]. split.
  - vm_compute. by eexists.
  - vm_compute. reflexivity.
Qed.

(** C3 (code bug): the field comment reads "Chat ID -> Set of user IDs",
    but [add_user_to_chat] pushes without checking membership.  Joining
    room 7 twice as user 1 leaves [1] twice in the room's vector, and a
    later [send_to_chat] delivers the same envelope twice to that user. *)
Theorem add_user_to_chat_duplicates :
  let s := final_state
             ((add_user_to_chat 7%Z 1%Z ;; add_user_to_chat 7%Z 1%Z) new_manager) in
  chat_participants s !! 7%Z = Some [1%Z; 1%Z] /\
  ~ NoDup [1%Z; 1%Z] /\
  outbox (final_state
    (send_to_chat 7%Z (Success "hi") (Some 2%Z)
       (set_connections {[1%Z := 11%Z]} s)))
  = [(1%Z, Success "hi"); (1%Z, Success "hi")].
Proof.
  simpl. split; [vm_compute; reflexivity|]. split.
  - intros Hnd. apply NoDup_cons in Hnd as [Hn _]. set_solver.
  - vm_compute. reflexivity.
Qed.

(** C4: an inbound chat message from [S] yields no reply on [S]'s own
    channel and one outbound envelope, stamped with sender [S], the fresh
    id [new_id] and the server time [now], handed to [send_to_chat] with
    [S] excluded: every delivery carries that envelope and none goes to
    [S]. *)
Theorem chat_message_routed (s : Manager) (S chat_id mid0 sid0 new_id : Uuid)
    (content : string) (ts0 now : DateTime) :
  conn_lock s = Unlocked -> chat_lock s = Unlocked ->
  let env := ChatMessage chat_id new_id content S now in
  handle_websocket_message (ChatMessage chat_id mid0 content sid0 ts0) S new_id now s
  = Done [] (set_outbox (outbox s ++ chat_deliveries s chat_id env (Some S)) s) /\
  (forall v m, (v, m) ∈ chat_deliveries s chat_id env (Some S) ->
     v <> S /\ m = env /\ v ∈ default [] (chat_participants s !! chat_id)).
Proof.
  intros Hc Hch env. split.
  - unfold handle_websocket_message, mbind, M_bind. cbv beta zeta.
    rewrite send_to_chat_run by done. reflexivity.
  - intros v m Hin. unfold chat_deliveries in Hin.
    apply list_elem_of_In, in_map_iff in Hin as (u & Heq & Hu).
    injection Heq as -> ->.
    apply list_elem_of_In, list_elem_of_filter in Hu as [[Hne _] Hu].
    apply not_excluded_Some in Hne. auto.
Qed.

(** Two users, 1 and 2, registered and in room 7. *)
Definition room_of_two : Manager :=
  mkManager {[1%Z := 11%Z; 2%Z := 12%Z]} Unlocked {[7%Z := [1%Z; 2%Z]]} Unlocked [].

Lemma chat_message_routed_witness :
  conn_lock room_of_two = Unlocked /\ chat_lock room_of_two = Unlocked /\
  handle_websocket_message (ChatMessage 7 0 "hi" 2 0) 1 99 1000 room_of_two
  = Done [] (set_outbox [(2%Z, ChatMessage 7 99 "hi" 1 1000)] room_of_two).
Proof.
  split; [reflexivity|]. split; [reflexivity|].
  destruct (chat_message_routed room_of_two 1 7 0 2 99 "hi" 0 1000 eq_refl eq_refl)
    as [Hrun _].
  rewrite Hrun. vm_compute. reflexivity.
Defined.

(** C9: the envelopes [handle_websocket_message] sends for an inbound chat
    message or typing indicator depend on neither the inbound [sender_id],
    [user_id], [message_id] nor [timestamp]: each is the same
    [send_to_chat] call, stamped with the session's [user_id] and
    excluding it. *)
Theorem handler_ignores_client_identity (U new_id : Uuid) (now : DateTime) :
  (forall chat_id content mid1 mid2 sid1 sid2 ts1 ts2,
     handle_websocket_message (ChatMessage chat_id mid1 content sid1 ts1) U new_id now =
     handle_websocket_message (ChatMessage chat_id mid2 content sid2 ts2) U new_id now /\
     handle_websocket_message (ChatMessage chat_id mid1 content sid1 ts1) U new_id now =
     (send_to_chat chat_id (ChatMessage chat_id new_id content U now) (Some U) ;;
      mret [])) /\
  (forall chat_id u1 u2,
     handle_websocket_message (TypingStart chat_id u1) U new_id now =
     handle_websocket_message (TypingStart chat_id u2) U new_id now /\
     handle_websocket_message (TypingStart chat_id u1) U new_id now =
     (send_to_chat chat_id (TypingStart chat_id U) (Some U) ;; mret [])) /\
  (forall chat_id u1 u2,
     handle_websocket_message (TypingStop chat_id u1) U new_id now =
     handle_websocket_message (TypingStop chat_id u2) U new_id now /\
     handle_websocket_message (TypingStop chat_id u1) U new_id now =
     (send_to_chat chat_id (TypingStop chat_id U) (Some U) ;; mret [])).
Proof. split; [|split]; intros; split; reflexivity. Qed.

(** [remove_connection], evaluated: it takes the write guard, deletes the
    entry, and then waits forever in [broadcast_to_all] for a read guard of
    the lock it still holds. *)
Lemma remove_connection_run (s : Manager) (user_id : Uuid) :
  remove_connection user_id s =
  match conn_lock s with
  | Unlocked =>
      Blocked (set_lock ConnsLock Writer
                 (set_connections (delete user_id (connections s)) s))
  | _ => Blocked s
  end.
Proof. by destruct s as [c [] cp cl ob]. Qed.

(** C1 (counterexample): after the teardown of user 1's session, room 7
    still lists user 1: no [Leave] is performed. *)
Lemma session_teardown_keeps_rooms :
  chat_participants room_of_two !! 7%Z = Some [1%Z; 2%Z] /\
  chat_participants (final_state (session_teardown 1%Z ReceiverTaskDone room_of_two))
    !! 7%Z = Some [1%Z; 2%Z].
Proof. split; vm_compute; reflexivity. Qed.

(** C1 (amended): whichever pump completes first, the session runs the same
    single cleanup, [remove_connection user_id]; it deletes the user's
    registry entry and leaves the room index unchanged. *)
Theorem session_teardown_unregisters_only (s : Manager) (user_id : Uuid)
    (first_done : PumpExit) :
  conn_lock s = Unlocked ->
  session_teardown user_id first_done s = remove_connection user_id s /\
  connections (final_state (session_teardown user_id first_done s))
    = delete user_id (connections s) /\
  chat_participants (final_state (session_teardown user_id first_done s))
    = chat_participants s.
Proof.
  intros Hc.
  assert (Ht : session_teardown user_id first_done s = remove_connection user_id s)
    by (by destruct first_done).
  rewrite Ht, remove_connection_run, Hc. done.
Qed.

Lemma session_teardown_unregisters_only_witness :
  conn_lock room_of_two = Unlocked /\
  chat_participants (final_state (session_teardown 1%Z SenderTaskDone room_of_two))
  = chat_participants room_of_two.
Proof.
  split; [reflexivity|].
  apply (session_teardown_unregisters_only room_of_two 1%Z SenderTaskDone eq_refl).
Defined.

(** C6 (code bug): [remove_connection] keeps its write guard across
    [broadcast_to_all], which waits for a read guard of the same tokio
    [RwLock]: on a fresh manager, unregistering the absent user 1 never
    returns and leaves the registry write-locked, so a later
    [get_online_users] never returns either.  [add_connection] has the same
    defect. *)
Theorem remove_connection_never_returns :
  remove_connection 1%Z new_manager = Blocked (mkManager ∅ Writer ∅ Unlocked []) /\
  (remove_connection 1%Z ;; get_online_users) new_manager
    = Blocked (mkManager ∅ Writer ∅ Unlocked []) /\
  (add_connection 1%Z 11%Z ;; get_online_users) new_manager
    = Blocked (mkManager {[1%Z := 11%Z]} Writer ∅ Unlocked []).
Proof. split; [|split]; vm_compute; reflexivity. Qed.

(** C7: when authentication fails, [websocket_connection] writes a single
    [Error] envelope whose code is the constant "AUTH_FAILED" and whose
    message is one of four fixed texts (the verifier's own error is
    dropped), and returns without touching the manager: no entry is
    registered. *)
Theorem auth_failure_rejects_without_register
    (parse_auth_message : string -> option string)
    (verify_token : string -> Claims + string)
    (select_pumps : Uuid -> M PumpExit)
    (first : option StreamItem) (tx : Sender) (s : Manager) (error : string) :
  authenticate_websocket parse_auth_message verify_token first = inr error ->
  websocket_connection parse_auth_message verify_token select_pumps first tx s
    = Done [Error error (Some "AUTH_FAILED"%string)] s /\
  error ∈ ["Invalid authentication message format"; "Invalid or expired token";
           "Expected text message for authentication";
           "No authentication message received"]%string.
Proof.
  intros Hauth. unfold websocket_connection. rewrite Hauth. split; [reflexivity|].
  unfold authenticate_websocket in Hauth.
  destruct first as [[[text| | | |]|]|]; try (injection Hauth as <-; set_solver).
  destruct (parse_auth_message text) as [token|]; [|injection Hauth as <-; set_solver].
  destruct (verify_token token); [discriminate|injection Hauth as <-; set_solver].
Qed.

Lemma auth_failure_rejects_without_register_witness :
  authenticate_websocket (fun _ => Some "garbage-token"%string)
    (fun _ => inr "InvalidSignature"%string)
    (Some (ItemOk (Text "garbage-token")))
  = inr "Invalid or expired token"%string /\
  connections
    (final_state
       (websocket_connection (fun _ => Some "garbage-token"%string)
          (fun _ => inr "InvalidSignature"%string) (fun _ => mret SenderTaskDone)
          (Some (ItemOk (Text "garbage-token"))) 5%Z new_manager))
  = ∅.
Proof.
  split; [reflexivity|].
  destruct (auth_failure_rejects_without_register (fun _ => Some "garbage-token"%string)
    (fun _ => inr "InvalidSignature"%string) (fun _ => mret SenderTaskDone)
    (Some (ItemOk (Text "garbage-token"))) 5%Z new_manager
    "Invalid or expired token" eq_refl) as [Hrun _].
  rewrite Hrun. reflexivity.
Defined.

(** ** The room index under [add_user_to_chat] / [remove_user_from_chat] *)

Lemma add_user_to_chat_run (s : Manager) (chat_id user_id : Uuid) :
  chat_lock s = Unlocked ->
  add_user_to_chat chat_id user_id s =
  Done tt (set_chat_participants (chat_join chat_id user_id (chat_participants s)) s).
Proof. intros H. destruct s; simpl in *; subst; reflexivity. Qed.

Lemma remove_user_from_chat_run (s : Manager) (chat_id user_id : Uuid) :
  chat_lock s = Unlocked ->
  remove_user_from_chat chat_id user_id s =
  Done tt (set_chat_participants (chat_leave chat_id user_id (chat_participants s)) s).
Proof. intros H. destruct s; simpl in *; subst; reflexivity. Qed.

Lemma set_chat_participants_same (s : Manager) :
  set_chat_participants (chat_participants s) s = s.
Proof. by destruct s. Qed.

Lemma set_chat_participants_twice cp cp' (s : Manager) :
  set_chat_participants cp (set_chat_participants cp' s) = set_chat_participants cp s.
Proof. by destruct s. Qed.

(** A call of the room index API. *)
Inductive IndexOp : Type :=
  | Join (chat_id user_id : Uuid)
  | Leave (chat_id user_id : Uuid).

Definition index_call (op : IndexOp) : M unit :=
  match op with
  | Join chat_id user_id => add_user_to_chat chat_id user_id
  | Leave chat_id user_id => remove_user_from_chat chat_id user_id
  end.

Definition index_update (op : IndexOp) (cp : gmap Uuid (list Uuid))
  : gmap Uuid (list Uuid) :=
  match op with
  | Join chat_id user_id => chat_join chat_id user_id cp
  | Leave chat_id user_id => chat_leave chat_id user_id cp
  end.

Lemma index_calls_run (ops : list IndexOp) (s : Manager) :
  chat_lock s = Unlocked ->
  for_each index_call ops s =
  Done tt (set_chat_participants
             (fold_left (fun cp op => index_update op cp) ops (chat_participants s)) s).
Proof.
  revert s. induction ops as [|op ops IH]; intros s Hl; simpl.
  - by rewrite set_chat_participants_same.
  - unfold mbind, M_bind.
    assert (Hop : index_call op s =
      Done tt (set_chat_participants (index_update op (chat_participants s)) s)).
    { destruct op; simpl;
        [apply add_user_to_chat_run | apply remove_user_from_chat_run]; done. }
    rewrite Hop, IH by (destruct s; done).
    by rewrite set_chat_participants_twice.
Qed.

(** No room maps to an empty member vector. *)
Definition no_empty_rooms (cp : gmap Uuid (list Uuid)) : Prop :=
  forall chat_id ps, cp !! chat_id = Some ps -> ps <> [].

Lemma chat_join_no_empty chat_id user_id cp :
  no_empty_rooms cp -> no_empty_rooms (chat_join chat_id user_id cp).
Proof.
  intros H c ps. unfold chat_join. rewrite lookup_insert.
  case_decide; [|by apply H]. intros [= <-]. by destruct (default [] _).
Qed.

Lemma chat_leave_no_empty chat_id user_id cp :
  no_empty_rooms cp -> no_empty_rooms (chat_leave chat_id user_id cp).
Proof.
  intros H c ps. unfold chat_leave.
  destruct (cp !! chat_id) as [qs|]; [|by apply H].
  destruct (filter _ qs) as [|x r] eqn:Hf.
  - rewrite lookup_delete. case_decide; [done|by apply H].
  - rewrite lookup_insert. case_decide; [by intros [= <-]|by apply H].
Qed.

Lemma chat_leave_lookup chat_id user_id cp :
  default [] (chat_leave chat_id user_id cp !! chat_id)
  = filter (fun id => id <> user_id) (default [] (cp !! chat_id)) /\
  (filter (fun id => id <> user_id) (default [] (cp !! chat_id)) = [] ->
   chat_leave chat_id user_id cp !! chat_id = None) /\
  (forall c, c <> chat_id -> chat_leave chat_id user_id cp !! c = cp !! c).
Proof.
  unfold chat_leave. destruct (cp !! chat_id) as [ps|] eqn:Hps; simpl.
  - destruct (filter _ ps) as [|x r] eqn:Hf.
    + rewrite lookup_delete_eq. split; [done|]. split; [done|].
      intros c Hc. by rewrite lookup_delete_ne.
    + rewrite lookup_insert_eq. split; [done|]. split; [done|].
      intros c Hc. by rewrite lookup_insert_ne.
  - rewrite Hps. split; [done|]. split; [done|]. done.
Qed.

Lemma filter_not_member (ps : list Uuid) (user_id : Uuid) :
  user_id ∉ ps -> filter (fun id => id <> user_id) ps = ps.
Proof.
  induction ps as [|x ps IH]; intros Hn; [done|].
  rewrite filter_cons, decide_True by set_solver. f_equal. apply IH. set_solver.
Qed.

(** C8: [remove_user_from_chat] leaves the room with exactly the other
    members and deletes the entry when none is left (other rooms are
    untouched); a join immediately followed by a leave of the same pair on
    an absent room restores the manager, so the room stays absent; and no
    sequence of joins and leaves from [ConnectionManager::new()] reaches a
    state with a room mapped to an empty vector. *)
Theorem leave_cleans_up_empty_rooms :
  (forall (cp : gmap Uuid (list Uuid)) (chat_id user_id : Uuid),
     default [] (chat_leave chat_id user_id cp !! chat_id)
       = filter (fun id => id <> user_id) (default [] (cp !! chat_id)) /\
     (filter (fun id => id <> user_id) (default [] (cp !! chat_id)) = [] ->
      chat_leave chat_id user_id cp !! chat_id = None) /\
     (forall c, c <> chat_id -> chat_leave chat_id user_id cp !! c = cp !! c)) /\
  (forall (s : Manager) (chat_id user_id : Uuid),
     chat_lock s = Unlocked -> chat_participants s !! chat_id = None ->
     (add_user_to_chat chat_id user_id ;; remove_user_from_chat chat_id user_id) s
       = Done tt s) /\
  (forall ops : list IndexOp,
     no_empty_rooms (chat_participants (final_state (for_each index_call ops new_manager)))).
Proof.
  split; [intros; apply chat_leave_lookup|]. split.
  - intros s chat_id user_id Hl Hnone. unfold mbind, M_bind.
    rewrite add_user_to_chat_run by done.
    rewrite remove_user_from_chat_run by (destruct s; done).
    rewrite set_chat_participants_twice. simpl.
    unfold chat_leave, chat_join. rewrite Hnone, lookup_insert_eq. simpl.
    assert (Hf : filter (fun id => id <> user_id) [user_id] = []).
    { rewrite filter_cons, decide_False; [done|]. intros H. by apply H. }
    rewrite Hf.
    rewrite delete_insert_id by done. by rewrite set_chat_participants_same.
  - intros ops. rewrite index_calls_run by done. simpl.
    assert (Hinv : forall cp, no_empty_rooms cp ->
      no_empty_rooms (fold_left (fun cp op => index_update op cp) ops cp)).
    { induction ops as [|op ops IH]; intros cp Hcp; simpl; [done|].
      apply IH. destruct op; simpl;
        [apply chat_join_no_empty | apply chat_leave_no_empty]; done. }
    apply Hinv. intros c ps H. by rewrite lookup_empty in H.
Qed.

Lemma leave_cleans_up_empty_rooms_witness :
  chat_lock new_manager = Unlocked /\ chat_participants new_manager !! 7%Z = None /\
  (add_user_to_chat 7%Z 1%Z ;; remove_user_from_chat 7%Z 1%Z) new_manager
    = Done tt new_manager.
Proof.
  split; [reflexivity|]. split; [reflexivity|].
  destruct leave_cleans_up_empty_rooms as [_ [Hjl _]].
  apply Hjl; reflexivity.
Defined.

(** C10: on a room index without empty vectors (every reachable one, by
    C8), leaving a room that has no entry, or a room the user is not a
    member of, returns normally and leaves the whole manager unchanged. *)
Theorem leave_absent_is_noop (s : Manager) (chat_id user_id : Uuid) :
  chat_lock s = Unlocked -> no_empty_rooms (chat_participants s) ->
  (chat_participants s !! chat_id = None \/
   exists ps, chat_participants s !! chat_id = Some ps /\ user_id ∉ ps) ->
  remove_user_from_chat chat_id user_id s = Done tt s.
Proof.
  intros Hl Hinv Hcase. rewrite remove_user_from_chat_run by done.
  unfold chat_leave. destruct Hcase as [Hn | (ps & Hps & Hu)].
  - rewrite Hn. by rewrite set_chat_participants_same.
  - rewrite Hps, filter_not_member by done.
    destruct ps as [|x r] eqn:Hps'; [by destruct (Hinv _ _ Hps)|].
    rewrite insert_id by done. by rewrite set_chat_participants_same.
Qed.

Lemma leave_absent_is_noop_witness :
  remove_user_from_chat 7%Z 3%Z room_of_two = Done tt room_of_two.
Proof.
  apply leave_absent_is_noop.
  - reflexivity.
  - intros c ps. unfold room_of_two. simpl. rewrite lookup_singleton.
    case_decide; [intros [= <-]; discriminate|done].
  - right. exists [1%Z; 2%Z]. split; [vm_compute; reflexivity|].
    rewrite !elem_of_cons. intros [H|[H|H]]; [lia|lia|set_solver].
Defined.

(** ** The outbound queue *)

Lemma next_power_of_two_pos (n : nat) : 1 <= next_power_of_two n.
Proof.
  unfold next_power_of_two.
  pose proof (Nat.pow_nonzero 2 (Nat.log2_up n)). lia.
Qed.

Lemma send_all_snoc (ms : list WsMessage) (m : WsMessage) (ch : BroadcastChannel) :
  send_all (ms ++ [m]) ch = chan_send m (send_all ms ch).
Proof. unfold send_all. by rewrite fold_left_app. Qed.

Lemma send_all_fresh (cap : nat) (ms : list WsMessage) :
  1 <= cap ->
  capacity (send_all ms (mkChannel cap [] 0)) = cap /\
  buffer (send_all ms (mkChannel cap [] 0)) = drop (length ms - cap) ms.
Proof.
  intros Hcap. induction ms as [|m ms IH] using rev_ind; [done|].
  rewrite send_all_snoc. destruct IH as [Hc Hb].
  unfold chan_send. rewrite Hc, Hb, length_drop, length_app. simpl.
  destruct (Nat.ltb_spec (length ms - (length ms - cap)) cap) as [Hlt|Hge]; simpl.
  - split; [done|]. rewrite drop_app_le by lia.
    replace (length ms + 1 - cap) with (length ms - cap) by lia. done.
  - split; [done|]. rewrite drop_drop, drop_app_le by lia.
    replace (length ms - cap + 1) with (length ms + 1 - cap) by lia. done.
Qed.

Lemma sender_task_bounded (fuel : nat) (ch : BroadcastChannel) :
  length (sender_task fuel ch) <= length (buffer ch).
Proof.
  revert ch. induction fuel as [|f IH]; intros ch; simpl; [lia|].
  unfold chan_recv. destruct (0 <? lag ch); simpl; [lia|].
  destruct (buffer ch) as [|m rest] eqn:Hb; simpl; [lia|].
  specialize (IH (mkChannel (capacity ch) rest 0)). simpl in IH. lia.
Qed.

(** C5 (counterexample): the queue of [broadcast::channel(100)] holds 128
    values, so after 101 sends to a stalled receiver nothing is dropped:
    the 101st message is the newest value in the buffer, and once the
    receiver resumes [sender_task] writes all 101 messages. *)
Lemma queue_keeps_101st_message :
  let ms := map (fun i => UserOnline (Z.of_nat i)) (seq 1 101) in
  let ch := send_all ms (broadcast_channel 100) in
  last (buffer ch) = Some (UserOnline 101) /\
  length (sender_task 1000 ch) = 101.
Proof. split; vm_compute; reflexivity. Qed.

(** C5 (amended): [broadcast::channel(requested)] has capacity
    [K = next_power_of_two requested] (128 for the 100 of
    [websocket_connection]); sending never waits; after any sequence of
    sends to a stalled receiver the queue holds exactly the newest
    [min n K] messages, so the incoming (newest) message is always kept and
    the oldest are dropped; once the receiver resumes, at most [K] messages
    are written. *)
Theorem broadcast_queue_drops_oldest (requested : nat) (ms : list WsMessage) :
  let K := next_power_of_two requested in
  let ch := send_all ms (broadcast_channel requested) in
  next_power_of_two 100 = 128 /\
  capacity ch = K /\
  buffer ch = drop (length ms - K) ms /\
  length (buffer ch) = Nat.min (length ms) K /\
  (forall m ms', ms = ms' ++ [m] -> last (buffer ch) = Some m) /\
  (forall fuel, length (sender_task fuel ch) <= K).
Proof.
  cbv zeta. unfold broadcast_channel.
  pose proof (next_power_of_two_pos requested) as HK.
  destruct (send_all_fresh (next_power_of_two requested) ms HK) as [Hc Hb].
  set (ch := send_all ms (mkChannel (next_power_of_two requested) [] 0)) in *.
  assert (Hlen : length (buffer ch) = Nat.min (length ms) (next_power_of_two requested))
    by (rewrite Hb, length_drop; lia).
  split; [reflexivity|]. split; [done|]. split; [done|]. split; [done|]. split.
  - intros m ms' ->. rewrite Hb, length_app. simpl.
    rewrite drop_app_le by lia. apply last_snoc.
  - intros fuel. pose proof (sender_task_bounded fuel ch). lia.
Qed.

(** ** Further properties of the connection registry *)

Lemma map_is_fmap {A B} (f : A -> B) (l : list A) : map f l = f <$> l.
Proof. induction l as [|x l IH]; simpl; [done|]. by rewrite IH. Qed.

Lemma for_each_send_pairs (l : list (Uuid * Sender)) (m : WsMessage) (s : Manager) :
  for_each (fun '(u, _) => send u m) l s =
  Done tt (set_outbox (outbox s ++ map (fun p => (p.1, m)) l) s).
Proof.
  revert s. induction l as [|[u x] l IH]; intros s; simpl.
  - by rewrite app_nil_r, set_outbox_outbox.
  - unfold mbind, M_bind, send, modify. rewrite IH. simpl.
    by rewrite <- app_assoc.
Qed.

Lemma filter_eq_length_NoDup (l : list Uuid) (v : Uuid) :
  NoDup l ->
  length (filter (fun u => u = v) l) = if decide (v ∈ l) then 1 else 0.
Proof.
  induction l as [|x l IH]; intros Hnd; [done|].
  apply NoDup_cons in Hnd as [Hx Hnd].
  destruct (decide (x = v)) as [<-|Hxv].
  - rewrite filter_cons_True by done. simpl. rewrite IH by done.
    rewrite decide_False by done. by rewrite decide_True by set_solver.
  - rewrite filter_cons_False by done. rewrite IH by done.
    destruct (decide (v ∈ l)), (decide (v ∈ x :: l)); set_solver.
Qed.

(** [send_to_user] with the registry unlocked: one send on the user's
    channel when the user is registered, and nothing at all (no error, no
    state change) when the user has no entry. *)
Theorem send_to_user_registered_only (s : Manager) (user_id : Uuid)
    (message : WsMessage) :
  conn_lock s = Unlocked ->
  send_to_user user_id message s =
  match connections s !! user_id with
  | Some _ => Done tt (set_outbox (outbox s ++ [(user_id, message)]) s)
  | None => Done tt s
  end.
Proof.
  intros Hc. destruct s as [c cl cp chl ob]; simpl in *; subst.
  unfold send_to_user, mbind, M_bind, read_lock, gets. simpl.
  by destruct (c !! user_id).
Qed.

Lemma send_to_user_registered_only_witness :
  send_to_user 2%Z Ping room_of_two
  = Done tt (set_outbox [(2%Z, Ping)] room_of_two) /\
  send_to_user 3%Z Ping room_of_two = Done tt room_of_two.
Proof.
  split; rewrite send_to_user_registered_only by reflexivity;
    vm_compute; reflexivity.
Defined.

(** [broadcast_to_all] with the registry unlocked sends the message exactly
    once to every registered user and to nobody else, and changes nothing
    but the sends. *)
Theorem broadcast_to_all_once_each (s : Manager) (message : WsMessage) :
  conn_lock s = Unlocked ->
  exists d,
    broadcast_to_all message s = Done tt (set_outbox (outbox s ++ d) s) /\
    (forall v m, (v, m) ∈ d -> m = message) /\
    (forall v, length (filter (fun e : Uuid * WsMessage => e.1 = v) d)
               = if decide (is_Some (connections s !! v)) then 1 else 0).
Proof.
  intros Hc. exists (map (fun p => (p.1, message)) (map_to_list (connections s))).
  split.
  - destruct s as [c cl cp chl ob]; simpl in *; subst.
    unfold broadcast_to_all, mbind, M_bind, read_lock, gets. simpl.
    rewrite for_each_send_pairs. reflexivity.
  - split.
    + intros v m Hin. apply list_elem_of_In, in_map_iff in Hin as (p & Heq & _).
      by injection Heq.
    + intros v.
      assert (Hm : map (fun p : Uuid * Sender => (p.1, message)) (map_to_list (connections s))
                   = map (fun u => (u, message)) (map fst (map_to_list (connections s))))
        by (rewrite map_map; reflexivity).
      rewrite Hm, (filter_fst_map (fun _ => message)), filter_eq_length_NoDup.
      * destruct (decide (v ∈ _)) as [Hin|Hin], (decide (is_Some _)) as [Hs|Hs];
          try done; exfalso.
        -- apply list_elem_of_In, in_map_iff in Hin as ([u x] & <- & Hin).
           apply list_elem_of_In, elem_of_map_to_list in Hin. simpl in Hs.
           apply Hs. by exists x.
        -- destruct Hs as [x Hx]. apply Hin, list_elem_of_In, in_map_iff.
           exists (v, x). split; [done|]. by apply list_elem_of_In, elem_of_map_to_list.
      * rewrite map_is_fmap. apply NoDup_fst_map_to_list.
Qed.

Lemma broadcast_to_all_once_each_witness :
  conn_lock room_of_two = Unlocked /\
  exists d,
    broadcast_to_all Pong room_of_two = Done tt (set_outbox (outbox room_of_two ++ d) room_of_two) /\
    length (filter (fun e : Uuid * WsMessage => e.1 = 2%Z) d) = 1 /\
    length (filter (fun e : Uuid * WsMessage => e.1 = 3%Z) d) = 0.
Proof.
  split; [reflexivity|].
  destruct (broadcast_to_all_once_each room_of_two Pong eq_refl) as (d & Hrun & _ & Hcnt).
  exists d. split; [exact Hrun|]. rewrite !Hcnt. split; vm_compute; reflexivity.
Defined.

(** [get_online_users] with the registry unlocked returns, without changing
    the manager, a duplicate-free list holding exactly the registered
    users. *)
Theorem get_online_users_exact (s : Manager) :
  conn_lock s = Unlocked ->
  exists us, get_online_users s = Done us s /\ NoDup us /\
    (forall u, u ∈ us <-> is_Some (connections s !! u)).
Proof.
  intros Hc. destruct s as [c cl cp chl ob]; simpl in *; subst.
  exists (map fst (map_to_list c)). split; [reflexivity|]. split.
  - rewrite map_is_fmap. apply NoDup_fst_map_to_list.
  - intros u. rewrite list_elem_of_In, in_map_iff. split.
    + intros ([v x] & <- & Hin). apply list_elem_of_In, elem_of_map_to_list in Hin.
      by exists x.
    + intros [x Hx]. exists (u, x). split; [done|].
      by apply list_elem_of_In, elem_of_map_to_list.
Qed.

Lemma get_online_users_exact_witness :
  conn_lock room_of_two = Unlocked /\
  exists us, get_online_users room_of_two = Done us room_of_two /\ NoDup us /\
    1%Z ∈ us /\ 3%Z ∉ us.
Proof.
  split; [reflexivity|].
  destruct (get_online_users_exact room_of_two eq_refl) as (us & Hrun & Hnd & Hmem).
  exists us. split; [exact Hrun|]. split; [exact Hnd|]. rewrite !Hmem. split.
  - vm_compute. by eexists.
  - vm_compute. intros [x Hx]. discriminate.
Defined.




(** A session whose authentication succeeds never gets past
    [add_connection]: with the registry unlocked, the user is inserted and
    the call then waits forever for the read guard in [broadcast_to_all],
    holding the write guard, so neither the welcome message nor the pumps
    ([select_pumps]) nor the teardown ever run; with the registry already
    write-locked, the session waits before registering anything. *)
Theorem authenticated_session_hangs
    (parse_auth_message : string -> option string)
    (verify_token : string -> Claims + string)
    (select_pumps : Uuid -> M PumpExit)
    (first : option StreamItem) (tx : Sender) (s : Manager) (user_id : Uuid) :
  authenticate_websocket parse_auth_message verify_token first = inl user_id ->
  (conn_lock s = Unlocked ->
   websocket_connection parse_auth_message verify_token select_pumps first tx s
   = Blocked (set_lock ConnsLock Writer
                (set_connections (<[user_id := tx]> (connections s)) s))) /\
  (conn_lock s = Writer ->
   websocket_connection parse_auth_message verify_token select_pumps first tx s
   = Blocked s).
Proof.
  intros Hauth. unfold websocket_connection. rewrite Hauth.
  split; intros Hc; destruct s as [c cl cp chl ob]; simpl in *; subst; reflexivity.
Qed.

Lemma authenticated_session_hangs_witness :
  authenticate_websocket (fun _ => Some "good-token"%string)
    (fun _ => inl (mkClaims 1%Z)) (Some (ItemOk (Text "good-token")))
  = inl 1%Z /\
  websocket_connection (fun _ => Some "good-token"%string)
    (fun _ => inl (mkClaims 1%Z)) (fun _ => mret SenderTaskDone)
    (Some (ItemOk (Text "good-token"))) 11%Z new_manager
  = Blocked (mkManager {[1%Z := 11%Z]} Writer ∅ Unlocked []).
Proof.
  split; [reflexivity|].
  destruct (authenticated_session_hangs (fun _ => Some "good-token"%string)
    (fun _ => inl (mkClaims 1%Z)) (fun _ => mret SenderTaskDone)
    (Some (ItemOk (Text "good-token"))) 11%Z new_manager 1%Z eq_refl) as [Hrun _].
  rewrite Hrun by reflexivity. vm_compute. reflexivity.
Defined.

(** ** Further properties of the router, the inbound pump and authentication *)

(** The inbound envelopes [handle_websocket_message] does not route: a
    [ping] is answered with one [Pong] on the session's own channel and
    every server-side variant ([pong], [notification], [user_online],
    [user_offline], [error], [success]) is dropped; in both cases the
    manager is left untouched, so a client can never push such envelopes to
    other users. *)
Theorem handler_unrouted_variants (m : WsMessage) (U new_id : Uuid)
    (now : DateTime) (s : Manager) :
  match m with
  | ChatMessage _ _ _ _ _ | TypingStart _ _ | TypingStop _ _ => False
  | _ => True
  end ->
  handle_websocket_message m U new_id now s
  = Done (match m with Ping => [Pong] | _ => [] end) s.
Proof. destruct m; simpl; done. Qed.

Lemma handler_unrouted_variants_witness :
  handle_websocket_message (UserOffline 2%Z) 1%Z 99%Z 0%Z room_of_two
  = Done [] room_of_two.
Proof. apply (handler_unrouted_variants (UserOffline 2%Z)). exact I. Defined.

(** [receiver_task] leaves its loop at the first close frame or read error:
    nothing after it is ever handled. *)
Theorem receiver_task_stops_at_close
    (parse_ws_message : string -> option WsMessage) (U : Uuid)
    (pre post : list (StreamItem * (Uuid * DateTime))) (t : StreamItem)
    (e : Uuid * DateTime) :
  t = ItemOk Close \/ t = ItemErr ->
  receiver_task parse_ws_message U (pre ++ (t, e) :: post)
  = receiver_task parse_ws_message U (pre ++ [(t, e)]).
Proof.
  intros Ht. induction pre as [|[item [new_id now]] pre IH]; simpl.
  - by destruct Ht as [-> | ->].
  - destruct item as [[text| | | |]|];
      [destruct (parse_ws_message text)| ..]; by rewrite ?IH.
Qed.

Lemma receiver_task_stops_at_close_witness :
  receiver_task (fun _ => Some Ping) 1%Z
    [(ItemOk MsgPing, (0%Z, 0%Z)); (ItemOk Close, (0%Z, 0%Z));
     (ItemOk MsgPing, (0%Z, 0%Z))] new_manager
  = Done [Pong] new_manager.
Proof.
  assert (H : receiver_task (fun _ => Some Ping) 1%Z
    [(ItemOk MsgPing, (0%Z, 0%Z)); (ItemOk Close, (0%Z, 0%Z));
     (ItemOk MsgPing, (0%Z, 0%Z))]
    = receiver_task (fun _ => Some Ping) 1%Z
    [(ItemOk MsgPing, (0%Z, 0%Z)); (ItemOk Close, (0%Z, 0%Z))]).
  { apply (receiver_task_stops_at_close (fun _ => Some Ping) 1%Z
             [(ItemOk MsgPing, (0%Z, 0%Z))] [(ItemOk MsgPing, (0%Z, 0%Z))]
             (ItemOk Close) (0%Z, 0%Z)). left; reflexivity. }
  rewrite H. reflexivity.
Defined.

(** Frames the inbound pump ignores: binary frames, pong frames, and text
    that does not parse as a [WsMessage]. *)
Definition ignored_item (parse_ws_message : string -> option WsMessage)
    (item : StreamItem) : Prop :=
  item = ItemOk Binary \/ item = ItemOk MsgPong \/
  exists text, item = ItemOk (Text text) /\ parse_ws_message text = None.

(** Malformed text, binary and pong frames are skipped without any effect
    and without ending the session. *)
Theorem receiver_task_skips_ignored
    (parse_ws_message : string -> option WsMessage) (U : Uuid)
    (junk rest : list (StreamItem * (Uuid * DateTime))) :
  Forall (fun p => ignored_item parse_ws_message p.1) junk ->
  receiver_task parse_ws_message U (junk ++ rest)
  = receiver_task parse_ws_message U rest.
Proof.
  induction 1 as [|[item [new_id now]] junk Hign _ IH]; [done|]. simpl in *.
  destruct Hign as [-> | [-> | (text & -> & Hp)]]; [done|done|].
  by rewrite Hp.
Qed.

Lemma receiver_task_skips_ignored_witness :
  receiver_task (fun _ => None) 1%Z
    [(ItemOk Binary, (0%Z, 0%Z)); (ItemOk (Text "not json"), (0%Z, 0%Z));
     (ItemOk MsgPing, (0%Z, 0%Z))] new_manager
  = Done [Pong] new_manager.
Proof.
  assert (H : receiver_task (fun _ => None) 1%Z
    [(ItemOk Binary, (0%Z, 0%Z)); (ItemOk (Text "not json"), (0%Z, 0%Z));
     (ItemOk MsgPing, (0%Z, 0%Z))]
    = receiver_task (fun _ => None) 1%Z [(ItemOk MsgPing, (0%Z, 0%Z))]).
  2: rewrite H; reflexivity.
  apply (receiver_task_skips_ignored (fun _ => None) 1%Z
    [(ItemOk Binary, (0%Z, 0%Z)); (ItemOk (Text "not json"), (0%Z, 0%Z))]
    [(ItemOk MsgPing, (0%Z, 0%Z))]).
  constructor; [left; reflexivity|].
  constructor; [|constructor].
  right; right. exists "not json"%string. split; reflexivity.
Defined.

(** A run of pings, as ping control frames or [ping] envelopes, yields
    exactly one [Pong] per ping on the session's own channel and leaves the
    manager untouched: no other user receives anything. *)
Theorem receiver_task_pings
    (parse_ws_message : string -> option WsMessage) (U : Uuid)
    (items : list (StreamItem * (Uuid * DateTime))) (s : Manager) :
  Forall (fun p => p.1 = ItemOk MsgPing \/
                   exists text, p.1 = ItemOk (Text text) /\
                                parse_ws_message text = Some Ping) items ->
  receiver_task parse_ws_message U items s = Done (replicate (length items) Pong) s.
Proof.
  induction 1 as [|[item [new_id now]] items Hp _ IH]; [done|]. simpl in *.
  destruct Hp as [-> | (text & -> & Hp)].
  - unfold mbind, M_bind. by rewrite IH.
  - rewrite Hp. unfold mbind, M_bind. simpl. by rewrite IH.
Qed.

Lemma receiver_task_pings_witness :
  receiver_task (fun _ => Some Ping) 1%Z
    [(ItemOk MsgPing, (0%Z, 0%Z)); (ItemOk (Text "ping"), (5%Z, 6%Z))] room_of_two
  = Done [Pong; Pong] room_of_two.
Proof.
  apply (receiver_task_pings (fun _ => Some Ping) 1%Z
    [(ItemOk MsgPing, (0%Z, 0%Z)); (ItemOk (Text "ping"), (5%Z, 6%Z))]).
  constructor; [left; reflexivity|].
  constructor; [|constructor].
  right. exists "ping"%string. split; reflexivity.
Defined.

(** [authenticate_websocket] succeeds exactly when the first item is a
    text frame that parses as an authentication message whose token the
    verifier accepts, and the identity it returns is that token's [sub]. *)
Theorem authenticate_websocket_ok
    (parse_auth_message : string -> option string)
    (verify_token : string -> Claims + string)
    (first : option StreamItem) (user_id : Uuid) :
  authenticate_websocket parse_auth_message verify_token first = inl user_id <->
  exists text token claims,
    first = Some (ItemOk (Text text)) /\ parse_auth_message text = Some token /\
    verify_token token = inl claims /\ sub claims = user_id.
Proof.
  split.
  - unfold authenticate_websocket.
    destruct first as [[[text| | | |]|]|]; try discriminate.
    destruct (parse_auth_message text) as [token|] eqn:Hp; [|discriminate].
    destruct (verify_token token) as [claims|] eqn:Hv; [|discriminate].
    intros [= <-]. by exists text, token, claims.
  - intros (text & token & claims & -> & Hp & Hv & <-). simpl.
    by rewrite Hp, Hv.
Qed.

(** ** Further properties of the outbound queue *)

Lemma send_all_lag (cap : nat) (ms : list WsMessage) :
  1 <= cap -> lag (send_all ms (mkChannel cap [] 0)) = length ms - cap.
Proof.
  intros Hcap. induction ms as [|m ms IH] using rev_ind; [done|].
  rewrite send_all_snoc. destruct (send_all_fresh cap ms Hcap) as [Hc Hb].
  unfold chan_send. rewrite Hc, Hb, length_drop, length_app. simpl.
  destruct (Nat.ltb_spec (length ms - (length ms - cap)) cap); simpl; lia.
Qed.

Lemma sender_task_no_lag (fuel : nat) (ch : BroadcastChannel) :
  lag ch = 0 -> sender_task fuel ch = take fuel (buffer ch).
Proof.
  revert ch. induction fuel as [|f IH]; intros ch Hl; simpl; [done|].
  unfold chan_recv. rewrite Hl. simpl.
  destruct (buffer ch) as [|m rest]; simpl; [done|].
  f_equal. by rewrite IH.
Qed.

(** Without overflow the queue is FIFO and loses nothing: when at most
    [K] messages are sent to a stalled receiver, the resumed
    [sender_task] writes all of them, in the order they were sent. *)
Theorem sender_task_fifo (requested : nat) (ms : list WsMessage) (fuel : nat) :
  length ms <= next_power_of_two requested -> length ms <= fuel ->
  sender_task fuel (send_all ms (broadcast_channel requested)) = ms.
Proof.
  intros Hk Hf. pose proof (next_power_of_two_pos requested) as HK.
  unfold broadcast_channel.
  destruct (send_all_fresh (next_power_of_two requested) ms HK) as [_ Hb].
  rewrite sender_task_no_lag.
  - rewrite Hb. replace (length ms - next_power_of_two requested) with 0 by lia.
    simpl. by apply take_ge.
  - rewrite send_all_lag by done. lia.
Qed.

Lemma sender_task_fifo_witness :
  sender_task 3 (send_all [Pong; Success "a"; Ping] (broadcast_channel 100))
  = [Pong; Success "a"; Ping].
Proof. apply sender_task_fifo; vm_compute; lia. Defined.

(** With overflow the resumed receiver writes nothing: its first [recv]
    reports [Lagged], [while let Ok(..)] ends, and [sender_task] exits. *)
Theorem sender_task_lagged_writes_nothing (requested : nat) (ms : list WsMessage)
    (fuel : nat) :
  next_power_of_two requested < length ms ->
  sender_task fuel (send_all ms (broadcast_channel requested)) = [].
Proof.
  intros Hover. pose proof (next_power_of_two_pos requested) as HK.
  unfold broadcast_channel. destruct fuel as [|f]; [done|]. simpl.
  unfold chan_recv. rewrite send_all_lag by done.
  destruct (Nat.ltb_spec 0 (length ms - next_power_of_two requested)); [done|lia].
Qed.

Lemma sender_task_lagged_writes_nothing_witness :
  sender_task 500 (send_all (map (fun i => UserOnline (Z.of_nat i)) (seq 1 129))
                     (broadcast_channel 100)) = [].
Proof. apply sender_task_lagged_writes_nothing. vm_compute. lia. Defined.

(** ** Further properties of the room index *)

Lemma chat_leave_twice (chat_id u v : Uuid) (cp : gmap Uuid (list Uuid)) :
  chat_leave chat_id u (chat_leave chat_id v cp) =
  match cp !! chat_id with
  | Some ps =>
      match filter (fun id => id <> u /\ id <> v) ps with
      | [] => delete chat_id cp
      | ps' => <[chat_id := ps']> cp
      end
  | None => cp
  end.
Proof.
  unfold chat_leave at 2. destruct (cp !! chat_id) as [ps|] eqn:Hps.
  - rewrite <- list_filter_filter.
    destruct (filter (fun id => id <> v) ps) as [|x r] eqn:Hf.
    + simpl. unfold chat_leave. by rewrite lookup_delete_eq.
    + unfold chat_leave. rewrite lookup_insert_eq.
      destruct (filter (fun id => id <> u) (x :: r)).
      * by rewrite delete_insert_eq.
      * by rewrite insert_insert_eq.
  - unfold chat_leave. by rewrite Hps.
Qed.

(** Leaving is idempotent, and two leaves of one room commute: the index
    does not depend on the order in which users leave. *)
Theorem chat_leave_idempotent_commutes (chat_id u v : Uuid)
    (cp : gmap Uuid (list Uuid)) :
  chat_leave chat_id u (chat_leave chat_id u cp) = chat_leave chat_id u cp /\
  chat_leave chat_id u (chat_leave chat_id v cp)
  = chat_leave chat_id v (chat_leave chat_id u cp).
Proof.
  split.
  - rewrite chat_leave_twice. unfold chat_leave.
    destruct (cp !! chat_id); [|done].
    rewrite (list_filter_iff _ (fun id => id <> u)) by naive_solver.
    by destruct (filter (fun id => id <> u) _).
  - rewrite !chat_leave_twice. destruct (cp !! chat_id); [|done].
    rewrite (list_filter_iff (fun id => id <> u /\ id <> v)
               (fun id => id <> v /\ id <> u)) by naive_solver. done.
Qed.

(** A user who is not yet in a room and joins then leaves it leaves the
    manager exactly as it was, whether or not the room existed (on an
    index without empty vectors, the reachable ones by C8). *)
Theorem join_then_leave_restores (s : Manager) (chat_id user_id : Uuid) :
  chat_lock s = Unlocked -> no_empty_rooms (chat_participants s) ->
  user_id ∉ default [] (chat_participants s !! chat_id) ->
  (add_user_to_chat chat_id user_id ;; remove_user_from_chat chat_id user_id) s
  = Done tt s.
Proof.
  intros Hl Hinv Hu. unfold mbind, M_bind.
  rewrite add_user_to_chat_run by done.
  rewrite remove_user_from_chat_run by (destruct s; done).
  rewrite set_chat_participants_twice. simpl.
  unfold chat_leave, chat_join. rewrite lookup_insert_eq. simpl.
  rewrite filter_app, filter_not_member by done.
  assert (Hf : filter (fun id => id <> user_id) [user_id] = []).
  { rewrite filter_cons, decide_False; [done|]. intros H. by apply H. }
  rewrite Hf, app_nil_r.
  destruct (chat_participants s !! chat_id) as [ps|] eqn:Hps; simpl.
  - destruct ps as [|x r]; [by destruct (Hinv _ _ Hps)|].
    rewrite insert_insert_eq, insert_id by done.
    by rewrite set_chat_participants_same.
  - rewrite delete_insert_id by done. by rewrite set_chat_participants_same.
Qed.

Lemma join_then_leave_restores_witness :
  (add_user_to_chat 7%Z 3%Z ;; remove_user_from_chat 7%Z 3%Z) room_of_two
  = Done tt room_of_two.
Proof.
  apply join_then_leave_restores.
  - reflexivity.
  - intros c ps. unfold room_of_two. simpl. rewrite lookup_singleton.
    case_decide; [intros [= <-]; discriminate|done].
  - change (default [] (chat_participants room_of_two !! 7%Z)) with [1%Z; 2%Z].
    rewrite !elem_of_cons. intros [H|[H|H]]; [lia|lia|set_solver].
Defined.
